(** * HHQueenYelp: the happy-hour search pipeline of [yelp_happy_hour.py]

    A shallow embedding of the functions of the script

      - [search_businesses]      (the paginator, lines 6-76),
      - [extract_business_info]  (the extractor, lines 78-106),
      - [save_to_json]           (the writer, lines 108-126),
      - [main]                   (lines 128-153),

    together with the Python operations they rely on: [dict.get], truth
    values, iteration, [len], [str.join], the comparison of an [int] with a
    JSON number and the [int * float] product of line 22.

    Python values that come out of [response.json()] are modelled by the
    type [json]; an operation that Python rejects at run time returns
    [Raise e] in the error monad [result].  Python's [float] is IEEE-754
    binary64, modelled with the Standard Library's [spec_float].  A file
    written by [json.dump] is kept as the value dumped; the encoder's text
    is not modelled. *)

From Stdlib Require Import ZArith List String Ascii Bool Lia SpecFloat.
Import ListNotations.
Local Open Scope string_scope.
Local Open Scope Z_scope.
Set Warnings "-register-all".

(** ** Exceptions and the error monad *)

Inductive exn : Set :=
| AttributeError
| TypeError
| ValueError
| OverflowError
| JSONDecodeError.

Inductive result (A : Type) : Type :=
| Ok (a : A)
| Raise (e : exn).

Arguments Ok {A} a.
Arguments Raise {A} e.

Definition bind {A B : Type} (m : result A) (k : A -> result B) : result B :=
  match m with
  | Ok a => k a
  | Raise e => Raise e
  end.

Notation "x <- m ;; k" := (bind m (fun x => k))
  (at level 61, m at next level, right associativity).

(** ** Python values *)

(** [float]: binary64. *)
Definition prec : Z := 53.
Definition emax : Z := 1024.

Module Py.

(** The values [json.loads] builds: [None], [bool], [int], [float], [str],
    [list] and [dict] with string keys.  A dict keeps its keys in insertion
    order; a key occurs once. *)
Inductive json : Type :=
| JNull
| JBool (b : bool)
| JInt (z : Z)
| JFloat (f : spec_float)
| JStr (s : string)
| JList (l : list json)
| JObj (kv : list (string * json)).

(** Lookup of a key in the items of a dict. *)
Fixpoint lookup (k : string) (kv : list (string * json)) : option json :=
  match kv with
  | [] => None
  | (k', v) :: rest => if String.eqb k k' then Some v else lookup k rest
  end.

(** [d.get(k, default)]: only a dict has the method. *)
Definition get (d : json) (k : string) (default : json) : result json :=
  match d with
  | JObj kv =>
      match lookup k kv with
      | Some v => Ok v
      | None => Ok default
      end
  | _ => Raise AttributeError
  end.

(** [d.get(k)] is [d.get(k, None)]. *)
Definition get_none (d : json) (k : string) : result json := get d k JNull.

(** Truth value, as [not x] and [if x] compute it. *)
Definition truthy (v : json) : bool :=
  match v with
  | JNull => false
  | JBool b => b
  | JInt z => negb (z =? 0)
  | JFloat (S754_zero _) => false
  | JFloat _ => true
  | JStr s => negb (String.eqb s "")
  | JList l => match l with [] => false | _ => true end
  | JObj kv => match kv with [] => false | _ => true end
  end.

(** The characters of a string, each a string of length one. *)
Fixpoint chars (s : string) : list json :=
  match s with
  | EmptyString => []
  | String c rest => JStr (String c EmptyString) :: chars rest
  end.

(** The items [for x in v] visits: the elements of a list, the characters of
    a string, the keys of a dict; the other values are not iterable. *)
Definition iter (v : json) : result (list json) :=
  match v with
  | JList l => Ok l
  | JStr s => Ok (chars s)
  | JObj kv => Ok (map (fun p => JStr (fst p)) kv)
  | _ => Raise TypeError
  end.

(** [len(v)]. *)
Definition len (v : json) : result Z :=
  match v with
  | JList l => Ok (Z.of_nat (List.length l))
  | JStr s => Ok (Z.of_nat (String.length s))
  | JObj kv => Ok (Z.of_nat (List.length kv))
  | _ => Raise TypeError
  end.

(** [sep.join(items)]: every item has to be a string. *)
Fixpoint join (sep : string) (items : list json) : result string :=
  match items with
  | [] => Ok ""
  | JStr x :: rest =>
      match rest with
      | [] => Ok x
      | _ :: _ => r <- join sep rest ;; Ok (x ++ sep ++ r)
      end
  | _ :: _ => Raise TypeError
  end.

(** The integer part of a finite float, rounded toward zero. *)
Definition trunc_finite (s : bool) (m : positive) (e : Z) : Z :=
  let magnitude :=
    match e with
    | Z0 => Zpos m
    | Zpos p => Zpos m * 2 ^ Zpos p
    | Zneg p => Zpos m / 2 ^ Zpos p
    end in
  if s then - magnitude else magnitude.

(** [int(x)] for a float [x]. *)
Definition int_of_float (x : spec_float) : result Z :=
  match x with
  | S754_zero _ => Ok 0
  | S754_finite s m e => Ok (trunc_finite s m e)
  | S754_infinity _ => Raise OverflowError
  | S754_nan => Raise ValueError
  end.

(** The conversion of an [int] operand of a mixed [int]/[float] operation:
    rounded to nearest, ties to even; too large an int is an error. *)
Definition float_of_int (n : Z) : result spec_float :=
  match binary_normalize prec emax n 0 false with
  | S754_infinity _ => Raise OverflowError
  | x => Ok x
  end.

(** [n * x] for an int [n] and a float [x]. *)
Definition int_mul_float (n : Z) (x : spec_float) : result spec_float :=
  a <- float_of_int n ;; Ok (SFmul prec emax a x).

(** [n >= x] for an int [n] and a float [x]: compared as exact numbers, false
    against NaN. *)
Definition int_ge_float (n : Z) (x : spec_float) : bool :=
  match x with
  | S754_zero _ => 0 <=? n
  | S754_infinity s => s
  | S754_nan => false
  | S754_finite s m e =>
      let sm := if s then Zneg m else Zpos m in
      match e with
      | Z0 => sm <=? n
      | Zpos p => sm * 2 ^ Zpos p <=? n
      | Zneg p => sm <=? n * 2 ^ Zpos p
      end
  end.

(** [n >= v] for an int [n]: defined against the numbers ([bool] included),
    a [TypeError] against anything else. *)
Definition int_ge (n : Z) (v : json) : result bool :=
  match v with
  | JInt z => Ok (z <=? n)
  | JBool b => Ok ((if b then 1 else 0) <=? n)
  | JFloat x => Ok (int_ge_float n x)
  | _ => Raise TypeError
  end.

End Py.
Import Py.

(** ** Line 22: miles to meters *)

(** The literal [1609.34]: the double nearest to 160934/100, which is
    [0x1.9255c28f5c28fp+10]. *)
Definition meters_per_mile : spec_float :=
  S754_finite false 7077952172180111 (-42).

(** [radius_meters = int(radius_miles * 1609.34)]. *)
Definition radius_meters (radius_miles : Z) : result Z :=
  p <- int_mul_float radius_miles meters_per_mile ;; int_of_float p.

(** Defaults of the keyword arguments of [search_businesses]. *)
Definition default_radius_miles : Z := 25.

(** ** The HTTP exchange *)

(** What [requests.get] is called with: the URL, the bearer token of the
    [headers] and the entries of the [params] dict. *)
Record request : Type := {
  req_url : string;
  req_authorization : string;
  param_term : string;
  param_latitude : spec_float;
  param_longitude : spec_float;
  param_radius : Z;
  param_categories : string;
  param_limit : Z;
  param_offset : Z
}.

(** What the loop reads of a response: [status_code], [text], and the value
    of [json()], [None] when the body is not JSON and [json()] raises. *)
Record response : Type := {
  status_code : Z;
  text : string;
  body : option json
}.

(** The lines the loop prints. *)
Inductive line : Type :=
| Fetched (total_fetched : Z) (total : json)
| ErrorStatus (status : Z)
| ErrorBody (text : string).

(** ** Lines 31-76: the pagination loop *)

(** The local variables of the loop, and what the outside has seen of it so
    far: the requests issued and the lines printed, oldest first. *)
Record state : Type := {
  all_businesses : list json;
  offset : Z;
  total_fetched : Z;
  requests : list request;
  stdout : list line
}.

(** How one pass through the body of [while True] ends: at the bottom of the
    loop, at a [break], or with an exception. *)
Inductive control : Type :=
| Next (s : state)
| Break (s : state)
| Throw (e : exn) (s : state).

(** What [search_businesses] leaves behind. *)
Record run : Type := {
  returned : result (list json);
  issued : list request;
  printed : list line
}.

Definition yelp_url : string := "https://api.yelp.com/v3/businesses/search".

Section Paginator.

(** The service: the response to the first request, to the second, ... *)
Variable responses : nat -> response.

Variable api_key : string.
Variables latitude longitude : spec_float.
Variable radius_miles : Z.
Variable term : string.
Variable limit : Z.

(** Lines 38-48. *)
Definition params (radius : Z) (s : state) : request :=
  {| req_url := yelp_url;
     req_authorization := "Bearer " ++ api_key;
     param_term := term;
     param_latitude := latitude;
     param_longitude := longitude;
     param_radius := radius;
     param_categories := "restaurants,bars";
     param_limit := limit;
     param_offset := offset s |}.

Definition send (radius : Z) (s : state) : state :=
  {| all_businesses := all_businesses s;
     offset := offset s;
     total_fetched := total_fetched s;
     requests := requests s ++ [params radius s];
     stdout := stdout s |}.

Definition print (l : list line) (s : state) : state :=
  {| all_businesses := all_businesses s;
     offset := offset s;
     total_fetched := total_fetched s;
     requests := requests s;
     stdout := stdout s ++ l |}.

(** Lines 60-63. *)
Definition extend (items : list json) (n : Z) (total : json) (s : state) : state :=
  {| all_businesses := all_businesses s ++ items;
     offset := offset s;
     total_fetched := total_fetched s + n;
     requests := requests s;
     stdout := stdout s ++ [Fetched (total_fetched s + n) total] |}.

(** Line 70. *)
Definition advance (s : state) : state :=
  {| all_businesses := all_businesses s;
     offset := offset s + limit;
     total_fetched := total_fetched s;
     requests := requests s;
     stdout := stdout s |}.

(** Lines 52-70, the branch of a 200 response whose body is [data]. *)
Definition on_success (data : json) (s : state) : control :=
  match get data "businesses" (JList []) with
  | Raise e => Throw e s
  | Ok businesses =>
      match get data "total" (JInt 0) with
      | Raise e => Throw e s
      | Ok total =>
          if negb (truthy businesses) then Break s
          else
            match iter businesses with
            | Raise e => Throw e s
            | Ok items =>
                match len businesses with
                | Raise e => Throw e s
                | Ok n =>
                    let s' := extend items n total s in
                    match int_ge (total_fetched s') total with
                    | Raise e => Throw e s'
                    | Ok exhausted =>
                        if exhausted || (1000 <=? total_fetched s')
                        then Break s'
                        else Next (advance s')
                    end
                end
            end
      end
  end.

(** Lines 38-74, one pass through the loop body, [r] being what
    [requests.get] returns. *)
Definition iteration (radius : Z) (r : response) (s : state) : control :=
  let s := send radius s in
  if status_code r =? 200 then
    match body r with
    | None => Throw JSONDecodeError s
    | Some data => on_success data s
    end
  else Break (print [ErrorStatus (status_code r); ErrorBody (text r)] s).

Definition finish (ret : result (list json)) (s : state) : run :=
  {| returned := ret; issued := requests s; printed := stdout s |}.

(** Lines 37-76.  The response to a request is the one at the position given
    by the number of requests issued before it. *)
Fixpoint search_loop (radius : Z) (fuel : nat) (s : state) : option run :=
  match fuel with
  | O => None
  | S fuel' =>
      match iteration radius (responses (List.length (requests s))) s with
      | Next s' => search_loop radius fuel' s'
      | Break s' => Some (finish (Ok (all_businesses s')) s')
      | Throw e s' => Some (finish (Raise e) s')
      end
  end.

(** Lines 32-34. *)
Definition initial : state :=
  {| all_businesses := []; offset := 0; total_fetched := 0;
     requests := []; stdout := [] |}.

(** [search_businesses(api_key, latitude, longitude, radius_miles, term,
    limit)], run for at most [fuel] passes through the loop. *)
Definition search_businesses (fuel : nat) : option run :=
  match radius_meters radius_miles with
  | Raise e => Some (finish (Raise e) initial)
  | Ok radius => search_loop radius fuel initial
  end.

End Paginator.

(** ** Lines 78-106: the extractor *)

(** Line 101, the list comprehension over the categories. *)
Fixpoint titles (categories : list json) : result (list json) :=
  match categories with
  | [] => Ok []
  | category :: rest =>
      title <- get_none category "title" ;;
      others <- titles rest ;;
      Ok (title :: others)
  end.

(** Lines 91-103, the dict built for one business; the entries are
    evaluated from top to bottom. *)
Definition extract_info (business : json) : result json :=
  name <- get_none business "name" ;;
  rating <- get_none business "rating" ;;
  review_count <- get_none business "review_count" ;;
  location <- get business "location" (JObj []) ;;
  display_address <- get location "display_address" (JList []) ;;
  parts <- iter display_address ;;
  address <- join ", " parts ;;
  location <- get business "location" (JObj []) ;;
  city <- get_none location "city" ;;
  location <- get business "location" (JObj []) ;;
  zip_code <- get_none location "zip_code" ;;
  phone <- get_none business "phone" ;;
  website <- get_none business "url" ;;
  coordinates <- get_none business "coordinates" ;;
  categories <- get business "categories" (JList []) ;;
  items <- iter categories ;;
  category_titles <- titles items ;;
  price <- get business "price" (JStr "N/A") ;;
  Ok (JObj [("name", name);
            ("rating", rating);
            ("review_count", review_count);
            ("address", JStr address);
            ("city", city);
            ("zip_code", zip_code);
            ("phone", phone);
            ("website", website);
            ("coordinates", coordinates);
            ("categories", JList category_titles);
            ("price", price)]).

(** Lines 88-106: the [for] loop appending to [business_info]. *)
Fixpoint extract_loop (businesses business_info : list json) : result (list json) :=
  match businesses with
  | [] => Ok business_info
  | business :: rest =>
      info <- extract_info business ;;
      extract_loop rest (business_info ++ [info])
  end.

Definition extract_business_info (businesses : list json) : result (list json) :=
  extract_loop businesses [].

(** ** The shape of the data (section 3 and 6 of the specification) *)

Definition is_str (v : json) : bool :=
  match v with JStr _ => true | _ => false end.

Definition is_dict (v : json) : bool :=
  match v with JObj _ => true | _ => false end.

(** The entry of a dict, [None] for anything that is not a dict or has no
    such key. *)
Definition field (k : string) (v : json) : option json :=
  match v with
  | JObj kv => lookup k kv
  | _ => None
  end.

(** A raw record: a dict whose [location], when present, is a dict whose
    [display_address], when present, is a list of strings, and whose
    [categories], when present, is a list of dicts. *)
Definition raw_record (business : json) : bool :=
  is_dict business
  && match field "location" business with
     | None => true
     | Some location =>
         is_dict location
         && match field "display_address" location with
            | None => true
            | Some (JList l) => forallb is_str l
            | Some _ => false
            end
     end
  && match field "categories" business with
     | None => true
     | Some (JList l) => forallb is_dict l
     | Some _ => false
     end.

(** The [display_address] list of a raw record, empty when the record has no
    [location] or the location no [display_address]. *)
Definition display_address (business : json) : list json :=
  match field "location" business with
  | Some location =>
      match field "display_address" location with
      | Some (JList l) => l
      | _ => []
      end
  | None => []
  end.

(** The strings among the items of a list. *)
Fixpoint strings (l : list json) : list string :=
  match l with
  | [] => []
  | JStr s :: rest => s :: strings rest
  | _ :: rest => strings rest
  end.


(** The records of the page a response carries. *)
Definition page_of (r : response) : list json :=
  match body r with
  | Some data =>
      match get data "businesses" (JList []) with
      | Ok businesses =>
          match iter businesses with
          | Ok items => items
          | Raise _ => []
          end
      | Raise _ => []
      end
  | None => []
  end.

(** The [total] a well-formed page reports, 0 when it reports none. *)
Definition reported_total (r : response) : Z :=
  match body r with
  | Some data =>
      match field "total" data with
      | Some (JInt z) => z
      | _ => 0
      end
  | None => 0
  end.

Section Pages.

Variable responses : nat -> response.

(** The records of the first [k] pages, in order. *)
Definition pages_upto (k : nat) : list json :=
  flat_map (fun i => page_of (responses i)) (seq 0 k).

(** The cumulative count once page [i] has been added. *)
Definition fetched_after (i : nat) : Z :=
  Z.of_nat (List.length (pages_upto (S i))).


Definition exhausted (i : nat) : bool :=
  reported_total (responses i) <=? fetched_after i.






End Pages.

(** ** The course of a run *)

Section Progress.

Variable responses : nat -> response.
Variable api_key : string.
Variables latitude longitude : spec_float.
Variable term : string.
Variable limit : Z.
Variable radius : Z.

(** The state a pass through the loop body ends in. *)
Definition state_of (c : control) : state :=
  match c with
  | Next s | Break s | Throw _ s => s
  end.

(** The bound on the passes left: the room under the cap, and at least one. *)
Definition passes_left (s : state) : nat :=
  Nat.max 1 (Z.to_nat (1000 - total_fetched s)).

(** The state in which the loop issues request number [k], counted from 0, if
    it gets that far. *)
Fixpoint state_after (k : nat) : option state :=
  match k with
  | O => Some initial
  | S k' =>
      match state_after k' with
      | Some s =>
          match iteration api_key latitude longitude term limit radius
                  (responses (List.length (requests s))) s with
          | Next s' => Some s'
          | _ => None
          end
      | None => None
      end
  end.

(** The loop invariant: before request [k], the [k] pages received so far
    have been accumulated and counted, and the offset has advanced [k]
    times by the page size. *)
Definition before_request (k : nat) (s : state) : Prop :=
  List.length (requests s) = k
  /\ all_businesses s = pages_upto responses k
  /\ total_fetched s = Z.of_nat (List.length (pages_upto responses k))
  /\ offset s = Z.of_nat k * limit
  /\ map param_offset (requests s) = map (fun i => Z.of_nat i * limit) (seq 0 k)
  /\ Forall (fun q => param_radius q = radius) (requests s).

End Progress.

(** ** Extraction, record by record *)

(** [info] is what the extractor makes of [business]. *)
Definition extracted (business info : json) : Prop :=
  extract_info business = Ok info.

(** ** Scenarios *)

(** Springfield, Illinois: 39.78125 and -89.65625. *)
Definition sample_latitude : spec_float :=
  S754_finite false 5598713208635392 (-47).
Definition sample_longitude : spec_float :=
  S754_finite true 6308997720178688 (-46).

(** A record as the service returns them, rated 4.5, without a price. *)
Definition sample_business : json :=
  JObj [("name", JStr "The Tap Room");
        ("rating", JFloat (S754_finite false 5066549580791808 (-50)));
        ("review_count", JInt 212);
        ("location",
         JObj [("display_address", JList [JStr "123 Main St"; JStr "Springfield"]);
               ("city", JStr "Springfield");
               ("zip_code", JStr "62701")]);
        ("phone", JStr "+12175550123");
        ("url", JStr "https://www.yelp.com/biz/the-tap-room");
        ("coordinates",
         JObj [("latitude", JFloat sample_latitude);
               ("longitude", JFloat sample_longitude)]);
        ("categories", JList [JObj [("alias", JStr "bars"); ("title", JStr "Bars")]])].

(** A record with little more than a price. *)
Definition sample_business_priced : json :=
  JObj [("name", JStr "Corner Bistro"); ("price", JStr "$$")].

(** A successful page: status 200 and a body with [businesses] and
    [total]. *)
Definition page_response (businesses : list json) (total : Z) : response :=
  {| status_code := 200;
     text := "";
     body := Some (JObj [("businesses", JList businesses);
                         ("total", JInt total)]) |}.

(** A response with a status and a body that is not read as JSON. *)
Definition plain_response (status : Z) (message : string) : response :=
  {| status_code := status; text := message; body := None |}.



(** A service with three matches: two on the first page, one on the
    second. *)
Definition two_then_one : nat -> response :=
  fun i =>
    match i with
    | O => page_response [sample_business; sample_business_priced] 3
    | _ => page_response [sample_business] 3
    end.


(** A service with 5000 matches, one to a page. *)
Definition single_pages : nat -> response :=
  fun _ => page_response [sample_business] 5000.

(** The loop with one record accumulated. *)
Definition one_fetched : state :=
  {| all_businesses := [sample_business];
     offset := 50;
     total_fetched := 1;
     requests := [];
     stdout := [] |}.

(** ** Miles to meters, exactly *)

(** [radius_miles] times 1609.34 as a rational number, rounded toward
    zero. *)
Definition exact_meters (radius_miles : Z) : Z :=
  Z.quot (radius_miles * 160934) 100.

(** Line 22 gives the exact value for [n] miles. *)
Definition truncates (n : Z) : bool :=
  match radius_meters n with
  | Ok m => m =? exact_meters n
  | Raise _ => false
  end.

(** It does so for [n], [n + 1], ..., [n + count - 1] and their
    opposites. *)
Fixpoint sweep (count : nat) (n : Z) : bool :=
  match count with
  | O => true
  | S count' => truncates n && truncates (- n) && sweep count' (n + 1)
  end.

(** ** Lines 108-126: the writer *)

(** What [datetime.now()] returns, to the second. *)
Record datetime : Type := {
  year : Z;
  month : Z;
  day : Z;
  hour : Z;
  minute : Z;
  second : Z
}.

(** The fields of a date and time of four-digit year, as [strftime] prints
    them in full. *)
Definition valid_datetime (d : datetime) : bool :=
  (1000 <=? year d) && (year d <=? 9999)
  && (1 <=? month d) && (month d <=? 12)
  && (1 <=? day d) && (day d <=? 31)
  && (0 <=? hour d) && (hour d <=? 23)
  && (0 <=? minute d) && (minute d <=? 59)
  && (0 <=? second d) && (second d <=? 59).

(** The decimal digit of a number below ten. *)
Definition digit (n : Z) : ascii := ascii_of_nat (48 + Z.to_nat n).

(** A number as a decimal of [width] digits, with leading zeros. *)
Fixpoint zero_padded (width : nat) (n : Z) : string :=
  match width with
  | O => ""
  | S width' =>
      zero_padded width' (n / 10) ++ String (digit (n mod 10)) ""
  end.

(** [d.strftime("%Y%m%d_%H%M%S")]. *)
Definition strftime_Ymd_HMS (d : datetime) : string :=
  zero_padded 4 (year d) ++ zero_padded 2 (month d) ++ zero_padded 2 (day d)
  ++ "_"
  ++ zero_padded 2 (hour d) ++ zero_padded 2 (minute d)
  ++ zero_padded 2 (second d).

(** Lines 120-121. *)
Definition timestamped_filename (now : datetime) : string :=
  "happy_hour_businesses_" ++ strftime_Ymd_HMS now ++ ".json".





Section Writer.

(** The clock, and the names [open(name, "w")] accepts. *)
Variable now : datetime.
Variable writable : string -> bool.


End Writer.

(** ** Lines 128-153: the script *)





Section Script.

Variable responses : nat -> response.
Variable now : datetime.
Variable writable : string -> bool.


End Script.

(** ** More scenarios *)

(** Noon on the first of March 2025. *)
Definition sample_now : datetime :=
  {| year := 2025; month := 3; day := 1; hour := 12; minute := 0;
     second := 7 |}.

(** One second later. *)
Definition sample_later : datetime :=
  {| year := 2025; month := 3; day := 1; hour := 12; minute := 0;
     second := 8 |}.





(** A record whose [location] is [null]. *)
Definition sample_business_nowhere : json :=
  JObj [("name", JStr "Ghost Kitchen"); ("location", JNull)].




(** ** The normalized record, field by field *)

(** A value that may be missing, [None] standing in for it. *)
Definition or_null (o : option json) : json :=
  match o with
  | Some v => v
  | None => JNull
  end.

(** An entry of the [location] of a record. *)
Definition location_field (k : string) (business : json) : option json :=
  match field "location" business with
  | Some location => field k location
  | None => None
  end.

(** The [categories] list of a raw record, empty when it has none. *)
Definition categories_of (business : json) : list json :=
  match field "categories" business with
  | Some (JList l) => l
  | _ => []
  end.

(** The keys of a normalized record, in the order of lines 92-102. *)
Definition normalized_keys : list string :=
  ["name"; "rating"; "review_count"; "address"; "city"; "zip_code"; "phone";
   "website"; "coordinates"; "categories"; "price"].

(** The keys of a raw record that lines 92-102 read. *)
Definition consumed_keys : list string :=
  ["name"; "rating"; "review_count"; "location"; "phone"; "url";
   "coordinates"; "categories"; "price"].

(** The keys of a dict, in order. *)
Definition keys (v : json) : list string :=
  match v with
  | JObj kv => map fst kv
  | _ => []
  end.



(** * Properties *)

(** ** Python operations *)

Lemma get_dict (kv : list (string * json)) (k : string) (default : json) :
  get (JObj kv) k default
  = Ok (match lookup k kv with Some v => v | None => default end).
Proof. unfold get. destruct (lookup k kv); reflexivity. Qed.

Lemma join_strings (sep : string) (l : list json) :
  forallb is_str l = true ->
  join sep l = Ok (String.concat sep (strings l)).
Proof.
  induction l as [|v l IH]; intros H.
  - reflexivity.
  - cbn [forallb] in H. apply andb_true_iff in H as [Hv Hl].
    destruct v; try discriminate.
    cbn [join strings]. destruct l as [|w l].
    + reflexivity.
    + rewrite (IH Hl). cbn [forallb] in Hl.
      apply andb_true_iff in Hl as [Hw _].
      destruct w; try discriminate. reflexivity.
Qed.

Lemma titles_dicts (l : list json) :
  forallb is_dict l = true ->
  exists ts, titles l = Ok ts /\ List.length ts = List.length l.
Proof.
  induction l as [|v l IH]; intros H.
  - exists []. split; reflexivity.
  - cbn [forallb] in H. apply andb_true_iff in H as [Hv Hl].
    destruct (IH Hl) as (ts & Hts & Hlen).
    destruct v; try discriminate.
    cbn [titles]. unfold get_none. rewrite get_dict, Hts. cbn [bind].
    eexists. split; [reflexivity|]. cbn [List.length]. now rewrite Hlen.
Qed.

(** ** The extractor *)

(** The dict the extractor builds from a raw record. *)
Lemma extract_info_raw_record (business : json) :
  raw_record business = true ->
  exists name rating review_count city zip_code phone website coordinates
         category_titles,
    extract_info business
    = Ok (JObj [("name", name);
                ("rating", rating);
                ("review_count", review_count);
                ("address",
                 JStr (String.concat ", " (strings (display_address business))));
                ("city", city);
                ("zip_code", zip_code);
                ("phone", phone);
                ("website", website);
                ("coordinates", coordinates);
                ("categories", JList category_titles);
                ("price",
                 match field "price" business with
                 | Some v => v
                 | None => JStr "N/A"
                 end)]).
Proof.
  unfold raw_record. intros H.
  apply andb_true_iff in H as [H Hcat]. apply andb_true_iff in H as [Hd Hloc].
  destruct business as [| | | | | |kv]; try discriminate. clear Hd.
  unfold extract_info, get_none, display_address.
  cbn [field] in *. rewrite !get_dict. cbn [bind].
  assert (Haddr : exists location,
             match lookup "location" kv with Some v => v | None => JObj [] end
             = JObj location
             /\ forallb is_str
                  match lookup "display_address" location with
                  | Some (JList l) => l
                  | _ => []
                  end = true
             /\ iter match lookup "display_address" location with
                     | Some v => v
                     | None => JList []
                     end
                = Ok match lookup "display_address" location with
                     | Some (JList l) => l
                     | _ => []
                     end
             /\ match lookup "location" kv with
                | Some location' =>
                    match field "display_address" location' with
                    | Some (JList l) => l
                    | _ => []
                    end
                | None => []
                end
                = match lookup "display_address" location with
                  | Some (JList l) => l
                  | _ => []
                  end).
  { destruct (lookup "location" kv) as [loc|].
    - apply andb_true_iff in Hloc as [Hd Hda].
      destruct loc as [| | | | | |location]; try discriminate.
      exists location. cbn [field] in *.
      destruct (lookup "display_address" location) as [da|].
      + destruct da; try discriminate. repeat split; auto.
      + repeat split; auto.
    - exists []. cbn. repeat split; auto. }
  destruct Haddr as (location & -> & Hstr & Hiter & ->).
  rewrite !get_dict. cbn [bind]. rewrite Hiter. cbn [bind].
  rewrite (join_strings _ _ Hstr). cbn [bind].
  assert (Hcats : exists items ts,
             iter match lookup "categories" kv with
                  | Some v => v
                  | None => JList []
                  end = Ok items
             /\ titles items = Ok ts).
  { destruct (lookup "categories" kv) as [c|].
    - destruct c; try discriminate.
      destruct (titles_dicts _ Hcat) as (ts & Hts & _).
      eexists; exists ts. split; [reflexivity | exact Hts].
    - exists [], []. split; reflexivity. }
  destruct Hcats as (items & ts & -> & Hts).
  cbn [bind]. rewrite Hts. cbn [bind].
  repeat eexists.
Qed.

Lemma extract_loop_returns (businesses : list json) :
  forall business_info out,
    extract_loop businesses business_info = Ok out ->
    exists infos,
      out = (business_info ++ infos)%list /\ Forall2 extracted businesses infos.
Proof.
  induction businesses as [|business rest IH]; intros acc out H.
  - cbn in H. injection H as <-. exists []. split.
    + now rewrite app_nil_r.
    + constructor.
  - cbn [extract_loop] in H.
    destruct (extract_info business) as [info|e] eqn:Hinfo; cbn [bind] in H;
      [|discriminate].
    destruct (IH _ _ H) as (infos & -> & Hall).
    exists (info :: infos). split.
    + now rewrite <- app_assoc.
    + constructor; assumption.
Qed.

Lemma extract_loop_raw_records (businesses : list json) :
  forallb raw_record businesses = true ->
  forall business_info,
  exists out, extract_loop businesses business_info = Ok out.
Proof.
  induction businesses as [|business rest IH]; intros H acc.
  - exists acc. reflexivity.
  - cbn [forallb] in H. apply andb_true_iff in H as [Hb Hrest].
    destruct (extract_info_raw_record _ Hb)
      as (? & ? & ? & ? & ? & ? & ? & ? & ? & Hinfo).
    cbn [extract_loop]. rewrite Hinfo. cbn [bind]. apply IH, Hrest.
Qed.

Lemma Forall2_nth_error_left {A B : Type} (R : A -> B -> Prop)
      (l : list A) (l' : list B) :
  Forall2 R l l' ->
  forall i a, nth_error l i = Some a ->
  exists b, nth_error l' i = Some b /\ R a b.
Proof.
  induction 1 as [|x y l l' Hxy _ IH]; intros i a Hi.
  - destruct i; discriminate.
  - destruct i as [|i]; cbn in Hi |- *.
    + injection Hi as <-. exists y. split; [reflexivity | assumption].
    + apply IH, Hi.
Qed.

(** C4. On every list of raw records the extractor returns a list of the
    same length whose i-th element is what [extract_info] makes of the i-th
    input record alone. *)
Theorem extract_business_info_length_order (businesses : list json) :
  forallb raw_record businesses = true ->
  exists out,
    extract_business_info businesses = Ok out
    /\ List.length out = List.length businesses
    /\ forall i business,
         nth_error businesses i = Some business ->
         exists info,
           nth_error out i = Some info /\ extract_info business = Ok info.
Proof.
  intros H. unfold extract_business_info.
  destruct (extract_loop_raw_records _ H []) as (out & Hout).
  destruct (extract_loop_returns _ _ _ Hout) as (infos & -> & Hall).
  exists infos. cbn [app] in *. split; [assumption|]. split.
  - symmetry. apply (Forall2_length Hall).
  - intros i business Hi.
    apply (Forall2_nth_error_left _ _ _ Hall i business Hi).
Qed.

Lemma extract_business_info_length_order_witness :
  exists out,
    extract_business_info [sample_business; sample_business_priced] = Ok out
    /\ List.length out = 2%nat
    /\ forall i business,
         nth_error [sample_business; sample_business_priced] i = Some business ->
         exists info,
           nth_error out i = Some info /\ extract_info business = Ok info.
Proof.
  apply (extract_business_info_length_order
           [sample_business; sample_business_priced]).
  reflexivity.
Defined.

(** C5. The [address] of the record extracted from a raw record is the
    comma-and-space join of its [location.display_address], the empty string
    when the location, the list or its items are missing; the two-line
    address ["123 Main St", "Springfield"] gives "123 Main St, Springfield". *)
Theorem extract_info_address (business : json) :
  raw_record business = true ->
  exists info,
    extract_info business = Ok info
    /\ field "address" info
       = Some (JStr (String.concat ", " (strings (display_address business))))
    /\ (field "location" business = None -> field "address" info = Some (JStr ""))
    /\ (forall location,
          field "location" business = Some location ->
          field "display_address" location = None ->
          field "address" info = Some (JStr ""))
    /\ (display_address business = [] -> field "address" info = Some (JStr ""))
    /\ (display_address business = [JStr "123 Main St"; JStr "Springfield"] ->
        field "address" info = Some (JStr "123 Main St, Springfield")).
Proof.
  intros H.
  destruct (extract_info_raw_record _ H)
    as (x & x0 & x1 & x2 & x3 & x4 & x5 & x6 & x7 & Hinfo).
  eexists. split; [exact Hinfo|].
  assert (Haddr : forall l a,
             display_address business = l ->
             String.concat ", " (strings l) = a ->
             field "address"
               (JObj [("name", x); ("rating", x0); ("review_count", x1);
                      ("address",
                       JStr (String.concat ", " (strings (display_address business))));
                      ("city", x2); ("zip_code", x3); ("phone", x4);
                      ("website", x5); ("coordinates", x6);
                      ("categories", JList x7);
                      ("price",
                       match field "price" business with
                       | Some v => v
                       | None => JStr "N/A"
                       end)])
             = Some (JStr a)).
  { intros l a -> <-. reflexivity. }
  split; [apply (Haddr _ _ eq_refl eq_refl)|].
  split; [intros Hloc; apply (Haddr []); [|reflexivity];
          unfold display_address; now rewrite Hloc|].
  split; [intros location Hloc Hda; apply (Haddr []); [|reflexivity];
          unfold display_address; now rewrite Hloc, Hda|].
  split; intros Hda; eapply Haddr; try exact Hda; reflexivity.
Qed.

Lemma extract_info_address_witness :
  exists info,
    extract_info sample_business = Ok info
    /\ field "address" info = Some (JStr "123 Main St, Springfield").
Proof.
  destruct (extract_info_address sample_business eq_refl)
    as (info & Hinfo & _ & _ & _ & _ & Hex).
  exists info. split; [exact Hinfo | apply Hex; reflexivity].
Defined.

(** C6. The [price] of the record extracted from a raw record is the literal
    "N/A" when the raw record has no [price], and the raw record's [price]
    itself when it has one. *)
Theorem extract_info_price (business : json) :
  raw_record business = true ->
  exists info,
    extract_info business = Ok info
    /\ (field "price" business = None ->
        field "price" info = Some (JStr "N/A"))
    /\ (forall price,
          field "price" business = Some price ->
          field "price" info = Some price).
Proof.
  intros H.
  destruct (extract_info_raw_record _ H)
    as (? & ? & ? & ? & ? & ? & ? & ? & ? & Hinfo).
  eexists. split; [exact Hinfo|].
  split.
  - intros ->. reflexivity.
  - intros price ->. reflexivity.
Qed.

Lemma extract_info_price_witness :
  (exists info,
      extract_info sample_business = Ok info
      /\ field "price" info = Some (JStr "N/A"))
  /\ (exists info,
         extract_info sample_business_priced = Ok info
         /\ field "price" info = Some (JStr "$$")).
Proof.
  split.
  - destruct (extract_info_price sample_business eq_refl)
      as (info & Hinfo & Hna & _).
    exists info. split; [exact Hinfo | apply Hna; reflexivity].
  - destruct (extract_info_price sample_business_priced eq_refl)
      as (info & Hinfo & _ & Hp).
    exists info. split; [exact Hinfo | apply Hp; reflexivity].
Defined.

(** ** The pagination loop *)

Lemma chars_length (s : string) :
  List.length (chars s) = String.length s.
Proof. induction s as [|c s IH]; cbn; congruence. Qed.

(** Whatever can be iterated has the length of its items. *)
Lemma len_iter (v : json) (items : list json) (n : Z) :
  iter v = Ok items -> len v = Ok n -> n = Z.of_nat (List.length items).
Proof.
  destruct v; cbn; try discriminate; intros [= <-] [= <-].
  - now rewrite chars_length.
  - reflexivity.
  - now rewrite length_map.
Qed.

(** A true value that can be iterated has an item. *)
Lemma truthy_iter (v : json) (items : list json) :
  truthy v = true -> iter v = Ok items -> items <> [].
Proof.
  destruct v; cbn; try discriminate.
  - destruct s; cbn; [discriminate|]. intros _ [= <-]. discriminate.
  - destruct l; [discriminate|]. intros _ [= <-]. discriminate.
  - destruct kv; [discriminate|]. intros _ [= <-]. discriminate.
Qed.

Section PaginatorProperties.

Variable responses : nat -> response.
Variable api_key : string.
Variables latitude longitude : spec_float.
Variable term : string.
Variable limit : Z.
Variable radius : Z.

Local Abbreviation request_of :=
  (params api_key latitude longitude term limit radius).
Local Abbreviation sent :=
  (send api_key latitude longitude term limit radius).
Local Abbreviation pass :=
  (iteration api_key latitude longitude term limit radius).
Local Abbreviation loop :=
  (search_loop responses api_key latitude longitude term limit radius).
Local Abbreviation reached :=
  (state_after responses api_key latitude longitude term limit radius).
Local Abbreviation holds_before := (before_request responses limit radius).

(** A pass that reaches the bottom of the loop has received a 200 response
    with a non-empty page, has appended the page, and has a count that grew
    and is still under the cap. *)
Lemma iteration_next (r : response) (s s' : state) :
  pass r s = Next s' ->
  status_code r = 200
  /\ page_of r <> []
  /\ all_businesses s' = (all_businesses s ++ page_of r)%list
  /\ total_fetched s' = total_fetched s + Z.of_nat (List.length (page_of r))
  /\ total_fetched s < total_fetched s' < 1000
  /\ offset s' = offset s + limit
  /\ requests s' = (requests s ++ [request_of s])%list.
Proof.
  unfold iteration.
  destruct (status_code r =? 200) eqn:Hst; [|discriminate].
  apply Z.eqb_eq in Hst.
  unfold page_of. destruct (body r) as [data|]; [|discriminate].
  unfold on_success.
  destruct (get data "businesses" (JList [])) as [businesses|]; [|discriminate].
  destruct (get data "total" (JInt 0)) as [total|]; [|discriminate].
  destruct (truthy businesses) eqn:Htrue; cbn [negb]; [|discriminate].
  destruct (iter businesses) as [items|] eqn:Hiter; [|discriminate].
  destruct (len businesses) as [n|] eqn:Hlen; [|discriminate].
  destruct (int_ge _ total) as [c|]; [|discriminate].
  destruct (c || _)%bool eqn:Hc; [discriminate|].
  intros [= <-].
  apply orb_false_iff in Hc as [_ Hcap]. apply Z.leb_gt in Hcap.
  cbn in Hcap |- *.
  pose proof (len_iter _ _ _ Hiter Hlen) as ->.
  pose proof (truthy_iter _ _ Htrue Hiter) as Hne.
  assert (0 < Z.of_nat (List.length items)).
  { destruct items; [congruence | cbn [List.length]; lia]. }
  repeat split; auto; lia.
Qed.

(** A pass over a response whose status is not 200 takes the [else] branch:
    it prints the status and the body and breaks, leaving the accumulated
    list alone. *)
Lemma iteration_failure (r : response) (s : state) :
  status_code r <> 200 ->
  pass r s
  = Break (print [ErrorStatus (status_code r); ErrorBody (text r)] (sent s)).
Proof.
  intros H. unfold iteration.
  apply Z.eqb_neq in H. now rewrite H.
Qed.

(** Every pass issues exactly one request. *)
Lemma iteration_requests (r : response) (s : state) :
  requests (state_of (pass r s)) = (requests s ++ [request_of s])%list.
Proof.
  unfold iteration.
  destruct (status_code r =? 200); [|reflexivity].
  destruct (body r) as [data|]; [|reflexivity].
  unfold on_success.
  destruct (get data "businesses" (JList [])) as [businesses|]; [|reflexivity].
  destruct (get data "total" (JInt 0)) as [total|]; [|reflexivity].
  destruct (negb (truthy businesses)); [reflexivity|].
  destruct (iter businesses) as [items|]; [|reflexivity].
  destruct (len businesses) as [n|]; [|reflexivity].
  destruct (int_ge _ total) as [c|]; [|reflexivity].
  destruct (c || _)%bool; reflexivity.
Qed.

(** With fuel for the passes left the loop ends, having issued no more
    requests than that. *)
Lemma search_loop_ends (fuel : nat) :
  forall s,
    (passes_left s <= fuel)%nat ->
    exists r,
      loop fuel s = Some r
      /\ (List.length (requests s) < List.length (issued r)
          <= List.length (requests s) + passes_left s)%nat.
Proof.
  induction fuel as [|fuel IH]; intros s Hfuel.
  - unfold passes_left in Hfuel. lia.
  - cbn [search_loop].
    pose proof (iteration_requests (responses (List.length (requests s))) s)
      as Hreq.
    destruct (pass _ s) as [s'|s'|e s'] eqn:Hit; cbn [state_of] in Hreq.
    + apply iteration_next in Hit as (_ & _ & _ & _ & Hcount & _ & _).
      assert (Hlt : (passes_left s' < passes_left s)%nat)
        by (unfold passes_left; lia).
      destruct (IH s') as (r & Hr & Hlen); [lia|].
      exists r. split; [exact Hr|].
      rewrite Hreq, length_app in Hlen. cbn [List.length] in Hlen. lia.
    + eexists. split; [reflexivity|]. cbn [finish issued].
      rewrite Hreq, length_app. cbn [List.length]. unfold passes_left. lia.
    + eexists. split; [reflexivity|]. cbn [finish issued].
      rewrite Hreq, length_app. cbn [List.length]. unfold passes_left. lia.
Qed.

(** More fuel does not change the outcome. *)
Lemma search_loop_more_fuel (fuel : nat) :
  forall s r extra,
    loop fuel s = Some r ->
    loop (fuel + extra) s = Some r.
Proof.
  induction fuel as [|fuel IH]; intros s r extra H.
  - discriminate.
  - cbn [search_loop Nat.add] in H |- *.
    destruct (pass _ s); auto.
Qed.


Lemma pages_upto_S (k : nat) :
  pages_upto responses (S k)
  = (pages_upto responses k ++ page_of (responses k))%list.
Proof.
  unfold pages_upto. rewrite seq_S, flat_map_app. cbn [flat_map Nat.add].
  now rewrite app_nil_r.
Qed.

Lemma before_request_initial : holds_before 0 initial.
Proof. repeat split. constructor. Qed.

Lemma before_request_next (k : nat) (s s' : state) :
  holds_before k s ->
  pass (responses k) s = Next s' ->
  holds_before (S k) s'.
Proof.
  intros (Hk & Hall & Hcount & Hoff & Hoffs & Hrad) Hit.
  apply iteration_next in Hit
    as (_ & _ & Hall' & Hcount' & _ & Hoff' & Hreq').
  unfold before_request.
  rewrite Hreq', Hall', Hcount', Hoff', pages_upto_S, !length_app, map_app.
  rewrite Hall, Hcount, Hoff, Hoffs, seq_S, map_app.
  cbn [List.length map Nat.add param_offset params].
  repeat split.
  - lia.
  - lia.
  - lia.
  - now rewrite Hoff.
  - apply Forall_app. split; [assumption|]. repeat constructor.
Qed.

Lemma state_after_spec (k : nat) :
  forall s,
    reached k = Some s ->
    holds_before k s
    /\ forall fuel, loop (k + fuel) initial = loop fuel s.
Proof.
  induction k as [|k IH]; intros s' H.
  - injection H as <-. split; [apply before_request_initial | reflexivity].
  - cbn [state_after] in H.
    destruct (reached k) as [s|]; [|discriminate].
    destruct (IH s eq_refl) as (Hinv & Hloop).
    destruct (pass _ s) as [s''| |] eqn:Hit; try discriminate.
    injection H as <-.
    pose proof Hinv as (Hk & _). rewrite Hk in Hit.
    split; [eapply before_request_next; eassumption|].
    intros fuel. replace (S k + fuel)%nat with (k + S fuel)%nat by lia.
    rewrite Hloop. cbn [search_loop]. now rewrite Hk, Hit.
Qed.







(** Whatever holds of the requests issued so far and of the one each state
    issues holds of all the requests of the run. *)
Lemma loop_issued (P : request -> Prop) (fuel : nat) :
  (forall s, P (request_of s)) ->
  forall s r,
    Forall P (requests s) ->
    loop fuel s = Some r ->
    Forall P (issued r).
Proof.
  intros HP. induction fuel as [|fuel IH]; intros s r Hs H.
  - discriminate.
  - cbn [search_loop] in H.
    pose proof (iteration_requests (responses (List.length (requests s))) s)
      as Hreq.
    assert (Hs' : Forall P (requests s ++ [request_of s]))
      by (apply Forall_app; split; [assumption | repeat constructor; apply HP]).
    destruct (pass _ s) as [s'|s'|e s']; cbn [state_of] in Hreq.
    + apply (IH s'); [now rewrite Hreq | assumption].
    + injection H as <-. cbn [finish issued]. now rewrite Hreq.
    + injection H as <-. cbn [finish issued]. now rewrite Hreq.
Qed.

(** The loop from the state in which request [k] is issued, when the
    response to it is a failure. *)
Lemma loop_failure (fuel : nat) (s : state) :
  status_code (responses (List.length (requests s))) <> 200 ->
  loop (S fuel) s
  = Some {| returned := Ok (all_businesses s);
            issued := requests s ++ [request_of s];
            printed :=
              stdout s
              ++ [ErrorStatus (status_code (responses (List.length (requests s))));
                  ErrorBody (text (responses (List.length (requests s))))] |}.
Proof.
  intros H. cbn [search_loop]. now rewrite (iteration_failure _ _ H).
Qed.

(** A pass over a 200 response prints no error: nothing, or the progress
    line. *)
Lemma iteration_success_stdout (r : response) (s : state) :
  status_code r = 200 ->
  stdout (state_of (pass r s)) = stdout s
  \/ exists n total,
       stdout (state_of (pass r s)) = (stdout s ++ [Fetched n total])%list.
Proof.
  intros Hst. unfold iteration. rewrite Hst. cbn [Z.eqb Pos.eqb].
  destruct (body r) as [data|]; [|now left].
  unfold on_success.
  destruct (get data "businesses" (JList [])) as [businesses|]; [|now left].
  destruct (get data "total" (JInt 0)) as [total|]; [|now left].
  destruct (negb (truthy businesses)); [now left|].
  destruct (iter businesses) as [items|]; [|now left].
  destruct (len businesses) as [n|]; [|now left].
  right. exists (total_fetched s + n), total.
  destruct (int_ge _ total) as [c|]; [|reflexivity].
  destruct (c || _)%bool; reflexivity.
Qed.



End PaginatorProperties.










(** C9. Whatever the service answers, [search_businesses] ends: fuel for
    1000 passes is enough, more fuel changes nothing, and no more than 1000
    requests (so no more than 1001) are issued. Every pass through the loop
    either ends it or leaves a count that has grown and is under 1000. *)
Theorem search_businesses_terminates
    (responses : nat -> response) (api_key : string)
    (latitude longitude : spec_float) (radius_miles : Z) (term : string)
    (limit : Z) :
  exists r,
    (forall extra,
        search_businesses responses api_key latitude longitude radius_miles
          term limit (1000 + extra) = Some r)
    /\ (List.length (issued r) <= 1000)%nat
    /\ (List.length (issued r) <= 1001)%nat
    /\ forall radius response s,
         match iteration api_key latitude longitude term limit radius
                 response s with
         | Next s' => total_fetched s < total_fetched s' < 1000
         | Break _ | Throw _ _ => True
         end.
Proof.
  assert (Hpass : forall radius response s,
             match iteration api_key latitude longitude term limit radius
                     response s with
             | Next s' => total_fetched s < total_fetched s' < 1000
             | Break _ | Throw _ _ => True
             end).
  { intros radius response s.
    destruct (iteration _ _ _ _ _ _ response s) as [s'| |] eqn:Hit; auto.
    now apply iteration_next in Hit as (_ & _ & _ & _ & Hcount & _). }
  unfold search_businesses.
  destruct (radius_meters radius_miles) as [radius|e].
  - destruct (search_loop_ends responses api_key latitude longitude term limit
                radius 1000 initial) as (r & Hr & Hlen).
    + reflexivity.
    + unfold passes_left in Hlen.
      cbn [initial total_fetched requests List.length] in Hlen.
      exists r. split; [|split; [|split]].
      * intros extra. apply search_loop_more_fuel, Hr.
      * lia.
      * lia.
      * exact Hpass.
  - eexists. split; [reflexivity|].
    cbn [finish issued initial requests List.length].
    split; [lia|]. split; [lia|]. exact Hpass.
Qed.

(** The bound of 1000 requests is reached: pages of a single record. *)
Lemma search_businesses_1000_requests :
  option_map (fun r => List.length (issued r))
    (search_businesses single_pages "key" sample_latitude sample_longitude 25
       "happy hour" 50 1000)
  = Some 1000%nat.
Proof. vm_compute. reflexivity. Qed.

(** C10. Success is status 200 and nothing else. On any other status, 201
    and 204 included, the pass takes the [else] branch: it prints the status
    and the body and breaks, and the loop returns the records accumulated so
    far. On status 200 no error line is printed. *)
Theorem only_status_200_is_success
    (responses : nat -> response) (api_key : string)
    (latitude longitude : spec_float) (term : string) (limit : Z)
    (radius : Z) (s : state) (fuel : nat) :
  let response := responses (List.length (requests s)) in
  (status_code response <> 200 ->
   iteration api_key latitude longitude term limit radius response s
   = Break (print [ErrorStatus (status_code response);
                   ErrorBody (text response)]
              (send api_key latitude longitude term limit radius s))
   /\ search_loop responses api_key latitude longitude term limit radius
        (S fuel) s
      = Some {| returned := Ok (all_businesses s);
                issued :=
                  requests s
                  ++ [params api_key latitude longitude term limit radius s];
                printed :=
                  stdout s
                  ++ [ErrorStatus (status_code response);
                      ErrorBody (text response)] |})
  /\ (status_code response = 200 ->
      let s' :=
        state_of
          (iteration api_key latitude longitude term limit radius response s)
      in
      stdout s' = stdout s
      \/ exists n total, stdout s' = (stdout s ++ [Fetched n total])%list).
Proof.
  intros response. split.
  - intros Hst. split.
    + now apply iteration_failure.
    + now apply loop_failure.
  - intros Hst. now apply iteration_success_stdout.
Qed.

Lemma only_status_200_is_success_witness :
  search_loop (fun _ => plain_response 201 "Created") "key" sample_latitude
    sample_longitude "happy hour" 50 40233 1 one_fetched
  = Some {| returned := Ok [sample_business];
            issued :=
              [params "key" sample_latitude sample_longitude "happy hour" 50
                 40233 one_fetched];
            printed := [ErrorStatus 201; ErrorBody "Created"] |}
  /\ search_loop (fun _ => plain_response 204 "") "key" sample_latitude
       sample_longitude "happy hour" 50 40233 1 one_fetched
     = Some {| returned := Ok [sample_business];
               issued :=
                 [params "key" sample_latitude sample_longitude "happy hour"
                    50 40233 one_fetched];
               printed := [ErrorStatus 204; ErrorBody ""] |}.
Proof.
  split.
  - apply (only_status_200_is_success (fun _ => plain_response 201 "Created")
             "key" sample_latitude sample_longitude "happy hour" 50 40233
             one_fetched 0).
    cbn. discriminate.
  - apply (only_status_200_is_success (fun _ => plain_response 204 "")
             "key" sample_latitude sample_longitude "happy hour" 50 40233
             one_fetched 0).
    cbn. discriminate.
Defined.

(** ** Miles to meters *)

(** The constant is a binary64 number, the one that the correctly rounded
    quotient of 160934 by 100 gives, and lies within 2^-43 of 1609.34. *)
Lemma meters_per_mile_nearest :
  valid_binary prec emax meters_per_mile = true
  /\ SFdiv prec emax (binary_normalize prec emax 160934 0 false)
       (binary_normalize prec emax 100 0 false)
     = meters_per_mile
  /\ 2 * Z.abs (7077952172180111 * 100 - 160934 * 2 ^ 42) <= 100.
Proof.
  split; [reflexivity|]. split; [vm_compute; reflexivity|].
  vm_compute. discriminate.
Qed.

Lemma sweep_spec (count : nat) :
  forall n,
    sweep count n = true ->
    forall m,
      n <= m < n + Z.of_nat count ->
      truncates m = true /\ truncates (- m) = true.
Proof.
  induction count as [|count IH]; intros n H m Hm.
  - lia.
  - cbn [sweep] in H.
    apply andb_true_iff in H as [H Hrest]. apply andb_true_iff in H as [Hn Hneg].
    destruct (Z.eq_dec m n) as [->|Hne].
    + split; assumption.
    + apply (IH (n + 1) Hrest). lia.
Qed.

(** Up to 25000 miles either way, once round the Earth, line 22 gives the
    exact value. *)
Lemma radius_meters_within (radius_miles : Z) :
  -25000 <= radius_miles <= 25000 ->
  radius_meters radius_miles = Ok (exact_meters radius_miles).
Proof.
  intros H.
  assert (Hsweep : sweep (Z.to_nat 25001) 0 = true)
    by (vm_compute; reflexivity).
  assert (Htrunc : truncates radius_miles = true).
  { destruct (Z_le_gt_dec 0 radius_miles).
    - apply (sweep_spec _ _ Hsweep radius_miles). lia.
    - replace radius_miles with (- - radius_miles) by lia.
      apply (sweep_spec _ _ Hsweep (- radius_miles)). lia. }
  unfold truncates in Htrunc.
  destruct (radius_meters radius_miles) as [m|]; [|discriminate].
  apply Z.eqb_eq in Htrunc. now subst.
Qed.

(** The radius of every request is the one computed on line 22. *)
Lemma search_businesses_radius
    (responses : nat -> response) (api_key : string)
    (latitude longitude : spec_float) (radius_miles : Z) (term : string)
    (limit : Z) (radius : Z) (fuel : nat) (r : run) :
  radius_meters radius_miles = Ok radius ->
  search_businesses responses api_key latitude longitude radius_miles term
    limit fuel = Some r ->
  Forall (fun q => param_radius q = radius) (issued r).
Proof.
  unfold search_businesses. intros -> H.
  apply (loop_issued responses api_key latitude longitude term limit radius
           _ fuel) with (s := initial).
  - reflexivity.
  - constructor.
  - exact H.
Qed.

(** C8, as the code has it. For a radius of at most 25000 miles either way
    the radius computed on line 22, which is the radius of every request
    sent, is [radius_miles] times 1609.34 rounded toward zero; the default
    25 miles gives 40233 meters. *)
Theorem radius_meters_truncates (radius_miles : Z) :
  -25000 <= radius_miles <= 25000 ->
  radius_meters radius_miles = Ok (exact_meters radius_miles)
  /\ (forall responses api_key latitude longitude term limit fuel r q,
        search_businesses responses api_key latitude longitude radius_miles
          term limit fuel = Some r ->
        In q (issued r) ->
        param_radius q = exact_meters radius_miles)
  /\ radius_meters default_radius_miles = Ok 40233.
Proof.
  intros H. pose proof (radius_meters_within _ H) as Hradius.
  split; [exact Hradius|]. split; [|vm_compute; reflexivity].
  intros responses api_key latitude longitude term limit fuel r q Hrun Hq.
  pose proof (search_businesses_radius _ _ _ _ _ _ _ _ _ _ Hradius Hrun) as Hall.
  rewrite Forall_forall in Hall. apply Hall, Hq.
Qed.

Lemma radius_meters_truncates_witness :
  radius_meters 25 = Ok 40233
  /\ (forall q,
         In q [params "key" sample_latitude sample_longitude "happy hour" 50
                 40233 initial] ->
         param_radius q = 40233).
Proof.
  destruct (radius_meters_truncates 25) as (Hradius & Hsent & _).
  - lia.
  - split; [exact Hradius|].
    intros q Hq.
    apply (Hsent (fun _ => plain_response 500 "") "key" sample_latitude
             sample_longitude "happy hour" 50 1%nat
             {| returned := Ok [];
                issued :=
                  [params "key" sample_latitude sample_longitude "happy hour"
                     50 40233 initial];
                printed := [ErrorStatus 500; ErrorBody ""] |} q).
    + vm_compute. reflexivity.
    + exact Hq.
Defined.

(** C8 as stated fails: for a radius of 10^15 + 1 miles the product is
    1609340000000001609.34, and line 22 gives 1609340000000001536, the
    binary64 product having no bits left for the units. *)
Lemma radius_meters_inexact :
  radius_meters 1000000000000001 = Ok 1609340000000001536
  /\ exact_meters 1000000000000001 = 1609340000000001609
  /\ radius_meters 1000000000000001 <> Ok (exact_meters 1000000000000001).
Proof.
  split; [vm_compute; reflexivity|]. split; [vm_compute; reflexivity|].
  vm_compute. discriminate.
Qed.

(** * Further properties *)

(** ** The extractor, field by field *)

Lemma titles_of_dicts (l : list json) :
  forallb is_dict l = true ->
  titles l = Ok (map (fun category => or_null (field "title" category)) l).
Proof.
  induction l as [|v l IH]; intros H.
  - reflexivity.
  - cbn [forallb] in H. apply andb_true_iff in H as [Hv Hl].
    destruct v; try discriminate.
    cbn [titles map]. unfold get_none. rewrite get_dict, (IH Hl).
    cbn [bind field or_null]. unfold or_null.
    destruct (lookup "title" kv); reflexivity.
Qed.

(** The dict built from a raw record, every entry spelled out. *)
Lemma extract_info_entries (business : json) :
  raw_record business = true ->
  extract_info business
  = Ok (JObj [("name", or_null (field "name" business));
              ("rating", or_null (field "rating" business));
              ("review_count", or_null (field "review_count" business));
              ("address",
               JStr (String.concat ", " (strings (display_address business))));
              ("city", or_null (location_field "city" business));
              ("zip_code", or_null (location_field "zip_code" business));
              ("phone", or_null (field "phone" business));
              ("website", or_null (field "url" business));
              ("coordinates", or_null (field "coordinates" business));
              ("categories",
               JList (map (fun category => or_null (field "title" category))
                        (categories_of business)));
              ("price",
               match field "price" business with
               | Some v => v
               | None => JStr "N/A"
               end)]).
Proof.
  unfold raw_record. intros H.
  apply andb_true_iff in H as [H Hcat]. apply andb_true_iff in H as [Hd Hloc].
  destruct business as [| | | | | |kv]; try discriminate. clear Hd.
  unfold extract_info, get_none, display_address, location_field,
    categories_of.
  cbn [field] in *. rewrite !get_dict. cbn [bind].
  destruct (lookup "location" kv) as [loc|].
  - apply andb_true_iff in Hloc as [Hd Hda].
    destruct loc as [| | | | | |location]; try discriminate.
    cbn [field] in *. rewrite !get_dict. cbn [bind].
    assert (Hjoin :
              (parts <- iter match lookup "display_address" location with
                             | Some v => v
                             | None => JList []
                             end ;; join ", " parts)
              = Ok (String.concat ", "
                      (strings match lookup "display_address" location with
                               | Some (JList l) => l
                               | _ => []
                               end))).
    { destruct (lookup "display_address" location) as [da|].
      - destruct da; try discriminate. cbn [iter bind].
        now apply join_strings.
      - reflexivity. }
    destruct (iter _) as [parts|] eqn:Hparts; cbn [bind] in Hjoin |- *;
      [|discriminate].
    rewrite Hjoin. cbn [bind].
    destruct (lookup "categories" kv) as [c|].
    + destruct c; try discriminate. cbn [iter bind].
      rewrite (titles_of_dicts _ Hcat). cbn [bind]. unfold or_null.
      repeat match goal with
             | |- context [match lookup ?k ?m with _ => _ end] =>
                 destruct (lookup k m)
             end; reflexivity.
    + cbn [iter bind titles map]. unfold or_null.
      repeat match goal with
             | |- context [match lookup ?k ?m with _ => _ end] =>
                 destruct (lookup k m)
             end; reflexivity.
  - cbn [lookup iter bind join]. rewrite !get_dict. cbn [lookup bind].
    destruct (lookup "categories" kv) as [c|].
    + destruct c; try discriminate. cbn [iter bind].
      rewrite (titles_of_dicts _ Hcat). cbn [bind]. unfold or_null.
      repeat match goal with
             | |- context [match lookup ?k ?m with _ => _ end] =>
                 destruct (lookup k m)
             end; reflexivity.
    + cbn [iter bind titles map]. unfold or_null.
      repeat match goal with
             | |- context [match lookup ?k ?m with _ => _ end] =>
                 destruct (lookup k m)
             end; reflexivity.
Qed.

(** X1. The record extracted from a raw record has the eleven keys of lines
    92-102, each once and in that order, whatever keys the raw record has;
    and so has any record the extractor returns at all. *)
Theorem extract_info_keys (business : json) :
  (raw_record business = true ->
   exists info,
     extract_info business = Ok info /\ keys info = normalized_keys)
  /\ (forall info,
        extract_info business = Ok info ->
        keys info = normalized_keys /\ NoDup (keys info)).
Proof.
  split.
  - intros H. eexists. split; [apply (extract_info_entries _ H)|reflexivity].
  - intros info H. unfold extract_info in H.
    repeat match type of H with
           | bind ?m _ = Ok _ =>
               destruct m; cbn [bind] in H; [|discriminate]
           end.
    injection H as <-. split; [reflexivity|].
    cbn [keys map fst].
    repeat (constructor; [cbn [In]; intuition discriminate|]).
    constructor.
Qed.

Lemma extract_info_keys_witness :
  exists info,
    extract_info sample_business = Ok info /\ keys info = normalized_keys.
Proof.
  apply (extract_info_keys sample_business). reflexivity.
Defined.

(** X2. The extractor reads nine keys of a record and nothing else: two
    dicts that agree on [name], [rating], [review_count], [location],
    [phone], [url], [coordinates], [categories] and [price] are extracted
    alike, error included. *)
Theorem extract_info_consumed_keys (business business' : json) :
  is_dict business = true ->
  is_dict business' = true ->
  (forall k, In k consumed_keys -> field k business = field k business') ->
  extract_info business = extract_info business'.
Proof.
  intros Hd Hd' H.
  destruct business as [| | | | | |kv]; try discriminate.
  destruct business' as [| | | | | |kv']; try discriminate.
  cbn [field] in H. unfold extract_info, get_none. rewrite !get_dict.
  rewrite !(H "name"), !(H "rating"), !(H "review_count"), !(H "location"),
    !(H "phone"), !(H "url"), !(H "coordinates"), !(H "categories"),
    !(H "price")
    by (cbn; intuition).
  reflexivity.
Qed.

Lemma extract_info_consumed_keys_witness :
  extract_info
    (JObj [("image_url", JStr "https://example.org/tap.jpg");
           ("name", JStr "Corner Bistro"); ("is_closed", JBool false);
           ("price", JStr "$$")])
  = extract_info sample_business_priced.
Proof.
  apply extract_info_consumed_keys.
  - reflexivity.
  - reflexivity.
  - intros k Hk. cbn in Hk.
    repeat (destruct Hk as [<-|Hk]; [reflexivity|]). destruct Hk.
Defined.

(** X3. In the record extracted from a raw record, [name], [rating],
    [review_count], [phone] and [coordinates] are the raw record's own
    values, [website] is its [url], [city] and [zip_code] are those of its
    [location], and each is [None] when the raw record lacks it; the keys
    [url] and [location] themselves are not kept. *)
Theorem extract_info_passes_fields (business : json) :
  raw_record business = true ->
  exists info,
    extract_info business = Ok info
    /\ field "name" info = Some (or_null (field "name" business))
    /\ field "rating" info = Some (or_null (field "rating" business))
    /\ field "review_count" info
       = Some (or_null (field "review_count" business))
    /\ field "phone" info = Some (or_null (field "phone" business))
    /\ field "coordinates" info = Some (or_null (field "coordinates" business))
    /\ field "website" info = Some (or_null (field "url" business))
    /\ field "city" info = Some (or_null (location_field "city" business))
    /\ field "zip_code" info
       = Some (or_null (location_field "zip_code" business))
    /\ field "url" info = None
    /\ field "location" info = None.
Proof.
  intros H. eexists. split; [apply (extract_info_entries _ H)|].
  repeat split.
Qed.

Lemma extract_info_passes_fields_witness :
  exists info,
    extract_info sample_business = Ok info
    /\ field "website" info = Some (JStr "https://www.yelp.com/biz/the-tap-room")
    /\ field "city" info = Some (JStr "Springfield").
Proof.
  destruct (extract_info_passes_fields sample_business eq_refl)
    as (info & Hinfo & _ & _ & _ & _ & _ & Hweb & Hcity & _).
  exists info. split; [exact Hinfo|]. split; [exact Hweb | exact Hcity].
Defined.

(** X4. The [categories] of the record extracted from a raw record is the
    list of the titles of the raw record's categories, one for each and in
    order, [None] for a category without a title; it is the empty list when
    the raw record has no [categories]. *)
Theorem extract_info_categories (business : json) :
  raw_record business = true ->
  exists info category_titles,
    extract_info business = Ok info
    /\ field "categories" info = Some (JList category_titles)
    /\ List.length category_titles = List.length (categories_of business)
    /\ (forall i category,
          nth_error (categories_of business) i = Some category ->
          nth_error category_titles i
          = Some (or_null (field "title" category)))
    /\ (field "categories" business = None -> category_titles = []).
Proof.
  intros H. eexists. eexists.
  split; [apply (extract_info_entries _ H)|].
  split; [reflexivity|]. split; [apply length_map|]. split.
  - intros i category Hi. rewrite nth_error_map, Hi. reflexivity.
  - intros Hnone. unfold categories_of. now rewrite Hnone.
Qed.

Lemma extract_info_categories_witness :
  exists info category_titles,
    extract_info sample_business = Ok info
    /\ field "categories" info = Some (JList category_titles)
    /\ nth_error category_titles 0 = Some (JStr "Bars")
    /\ List.length category_titles = 1%nat.
Proof.
  destruct (extract_info_categories sample_business eq_refl)
    as (info & category_titles & Hinfo & Hcat & Hlen & Hnth & _).
  exists info, category_titles.
  split; [exact Hinfo|]. split; [exact Hcat|].
  split; [exact (Hnth 0%nat _ eq_refl) | exact Hlen].
Defined.

(** X5. A record that is not a dict, or a dict whose [location] is present
    but is not a dict ([null], say), makes the extractor raise
    [AttributeError]. *)
Theorem extract_info_attribute_error (business : json) :
  (is_dict business = false -> extract_info business = Raise AttributeError)
  /\ (forall location,
        is_dict business = true ->
        field "location" business = Some location ->
        is_dict location = false ->
        extract_info business = Raise AttributeError).
Proof.
  split.
  - intros H. destruct business; try discriminate; reflexivity.
  - intros location Hd Hloc Hnd.
    destruct business as [| | | | | |kv]; try discriminate.
    cbn [field] in Hloc. unfold extract_info, get_none.
    rewrite !get_dict, Hloc. cbn [bind].
    destruct location; try discriminate; reflexivity.
Qed.

Lemma extract_info_attribute_error_witness :
  extract_info (JStr "The Tap Room") = Raise AttributeError
  /\ extract_info sample_business_nowhere = Raise AttributeError.
Proof.
  split.
  - apply (extract_info_attribute_error (JStr "The Tap Room")). reflexivity.
  - apply (extract_info_attribute_error sample_business_nowhere) with JNull;
      reflexivity.
Defined.

(** The accumulator of the loop is a prefix of its result. *)
Lemma extract_loop_accumulator (businesses : list json) :
  forall business_info,
    extract_loop businesses business_info
    = (out <- extract_loop businesses [] ;; Ok (business_info ++ out)%list).
Proof.
  induction businesses as [|business rest IH]; intros acc.
  - cbn. now rewrite app_nil_r.
  - cbn [extract_loop].
    destruct (extract_info business) as [info|e]; cbn [bind]; [|reflexivity].
    rewrite (IH (acc ++ [info])%list), (IH ([] ++ [info])%list).
    destruct (extract_loop rest []) as [out|e]; cbn [bind]; [|reflexivity].
    now rewrite <- app_assoc.
Qed.

Lemma extract_loop_app (l l' : list json) :
  extract_loop (l ++ l') []
  = (out <- extract_loop l [] ;;
     out' <- extract_loop l' [] ;;
     Ok (out ++ out')%list).
Proof.
  induction l as [|business rest IH].
  - cbn. destruct (extract_loop l' []); reflexivity.
  - cbn [app extract_loop].
    destruct (extract_info business) as [info|e]; cbn [bind]; [|reflexivity].
    rewrite (extract_loop_accumulator (rest ++ l') [info]), IH.
    rewrite (extract_loop_accumulator rest [info]).
    destruct (extract_loop rest []) as [out|e]; cbn [bind]; [|reflexivity].
    destruct (extract_loop l' []) as [out'|e]; cbn [bind]; [|reflexivity].
    now rewrite <- app_assoc.
Qed.

(** X6. Extraction goes page by page: the extraction of two lists put end
    to end is the two extractions put end to end, and fails as the first
    of them that fails. *)
Theorem extract_business_info_app (l l' : list json) :
  extract_business_info (l ++ l')
  = (out <- extract_business_info l ;;
     out' <- extract_business_info l' ;;
     Ok (out ++ out')%list).
Proof. apply extract_loop_app. Qed.

(** X7. One record that cannot be extracted loses them all: when the
    records before it are raw records and it makes [extract_info] raise,
    [extract_business_info] raises the same exception and returns
    nothing, whatever comes after. *)
Theorem extract_business_info_first_failure
    (before : list json) (business : json) (after : list json) (e : exn) :
  forallb raw_record before = true ->
  extract_info business = Raise e ->
  extract_business_info (before ++ business :: after) = Raise e.
Proof.
  intros Hbefore Hbad. unfold extract_business_info.
  rewrite extract_loop_app.
  destruct (extract_loop_raw_records _ Hbefore []) as (out & ->).
  cbn [bind extract_loop]. now rewrite Hbad.
Qed.

Lemma extract_business_info_first_failure_witness :
  extract_business_info
    [sample_business; sample_business_nowhere; sample_business_priced]
  = Raise AttributeError.
Proof.
  apply (extract_business_info_first_failure [sample_business]
           sample_business_nowhere [sample_business_priced] AttributeError);
    reflexivity.
Defined.

(** ** The pagination loop, request by request *)

Section PaginatorRuns.

Variable responses : nat -> response.
Variable api_key : string.
Variables latitude longitude : spec_float.
Variable term : string.
Variable limit : Z.
Variable radius : Z.

Local Abbreviation request_of :=
  (params api_key latitude longitude term limit radius).
Local Abbreviation sent :=
  (send api_key latitude longitude term limit radius).
Local Abbreviation pass :=
  (iteration api_key latitude longitude term limit radius).
Local Abbreviation loop :=
  (search_loop responses api_key latitude longitude term limit radius).
Local Abbreviation reached :=
  (state_after responses api_key latitude longitude term limit radius).
Local Abbreviation holds_before := (before_request responses limit radius).


(** The counter is the length of the list, and counts at least one record
    for every request answered. *)
Lemma reached_counts (k : nat) :
  forall s,
    reached k = Some s ->
    Z.of_nat k <= total_fetched s < 1000.
Proof.
  induction k as [|k IH]; intros s' H.
  - injection H as <-. cbn. lia.
  - cbn [state_after] in H.
    destruct (reached k) as [s|]; [|discriminate].
    specialize (IH s eq_refl).
    destruct (pass _ s) as [s''| |] eqn:Hit; try discriminate.
    injection H as <-.
    apply iteration_next in Hit as (_ & _ & _ & _ & Hcount & _). lia.
Qed.






End PaginatorRuns.









(** X12. The loop invariant. In the state in which request [k] is issued,
    [total_fetched] is the length of [all_businesses], which holds the [k]
    pages received so far in order; the count is below 1000 and at least
    [k], every page that lets the loop go on having at least one record;
    the offset is [k * limit]. So the loop never gets to a request number
    1000. *)
Theorem search_loop_invariant
    (responses : nat -> response) (api_key : string)
    (latitude longitude : spec_float) (term : string) (limit : Z)
    (radius : Z) (k : nat) (s : state) :
  state_after responses api_key latitude longitude term limit radius k
  = Some s ->
  total_fetched s = Z.of_nat (List.length (all_businesses s))
  /\ all_businesses s = pages_upto responses k
  /\ Z.of_nat k <= total_fetched s < 1000
  /\ offset s = Z.of_nat k * limit
  /\ List.length (requests s) = k
  /\ (k < 1000)%nat.
Proof.
  intros Hk.
  pose proof (state_after_spec _ _ _ _ _ _ _ _ _ Hk)
    as ((Hlen & Hall & Hcount & Hoff & _) & _).
  pose proof (reached_counts _ _ _ _ _ _ _ _ _ Hk) as Hbounds.
  rewrite Hall. repeat split; try assumption; lia.
Qed.

Lemma search_loop_invariant_witness :
  let s :=
    advance 50
      (extend [sample_business; sample_business_priced] 2 (JInt 3)
         (send "key" sample_latitude sample_longitude "happy hour" 50 40233
            initial)) in
  state_after two_then_one "key" sample_latitude sample_longitude
    "happy hour" 50 40233 1 = Some s
  /\ total_fetched s = 2
  /\ offset s = 50.
Proof.
  intros s. split; [reflexivity|].
  destruct (search_loop_invariant two_then_one "key" sample_latitude
              sample_longitude "happy hour" 50 40233 1 s eq_refl)
    as (Hcount & _ & _ & Hoff & _).
  split; [exact Hcount | exact Hoff].
Defined.

(** ** The writer *)

Lemma digit_injective (n m : Z) :
  0 <= n < 10 -> 0 <= m < 10 -> digit n = digit m -> n = m.
Proof.
  intros Hn Hm H. unfold digit in H.
  apply (f_equal nat_of_ascii) in H.
  rewrite !nat_ascii_embedding in H by lia. lia.
Qed.

Lemma append_last_injective (s t : string) (a b : ascii) :
  s ++ String a "" = t ++ String b "" -> s = t /\ a = b.
Proof.
  revert t. induction s as [|c s IH]; intros [|d t] H; cbn in H.
  - injection H as ->. split; reflexivity.
  - injection H as _ H. destruct t; discriminate.
  - injection H as _ H. destruct s; discriminate.
  - injection H as -> H. destruct (IH _ H) as [-> ->]. split; reflexivity.
Qed.

Lemma append_injective (s s' t t' : string) :
  String.length s = String.length s' ->
  s ++ t = s' ++ t' -> s = s' /\ t = t'.
Proof.
  revert s'. induction s as [|c s IH]; intros [|c' s'] Hlen H;
    cbn in Hlen, H; try discriminate.
  - split; [reflexivity | assumption].
  - injection Hlen as Hlen. injection H as -> H.
    destruct (IH _ Hlen H) as [-> ->]. split; reflexivity.
Qed.

Lemma append_length (s t : string) :
  String.length (s ++ t) = (String.length s + String.length t)%nat.
Proof. induction s as [|c s IH]; cbn; [reflexivity | now rewrite IH]. Qed.

Lemma append_associative (s t u : string) :
  (s ++ t) ++ u = s ++ t ++ u.
Proof. induction s as [|c s IH]; cbn; [reflexivity | now rewrite IH]. Qed.

Lemma zero_padded_length (width : nat) :
  forall n, String.length (zero_padded width n) = width.
Proof.
  induction width as [|width IH]; intros n.
  - reflexivity.
  - cbn [zero_padded]. rewrite append_length, IH. cbn. lia.
Qed.

(** Numbers that fit the width are told apart by their digits. *)
Lemma zero_padded_injective (width : nat) :
  forall n m,
    0 <= n < 10 ^ Z.of_nat width ->
    0 <= m < 10 ^ Z.of_nat width ->
    zero_padded width n = zero_padded width m ->
    n = m.
Proof.
  induction width as [|width IH]; intros n m Hn Hm H.
  - cbn in Hn, Hm. lia.
  - cbn [zero_padded] in H.
    apply append_last_injective in H as [Hhigh Hlow].
    rewrite Nat2Z.inj_succ, Z.pow_succ_r in Hn, Hm by lia.
    apply digit_injective in Hlow;
      [|apply Z.mod_pos_bound; lia|apply Z.mod_pos_bound; lia].
    apply IH in Hhigh.
    + rewrite (Z.div_mod n 10), (Z.div_mod m 10) by lia. congruence.
    + split; [apply Z.div_pos; lia | apply Z.div_lt_upper_bound; lia].
    + split; [apply Z.div_pos; lia | apply Z.div_lt_upper_bound; lia].
Qed.

Lemma valid_datetime_bounds (d : datetime) :
  valid_datetime d = true ->
  1000 <= year d <= 9999 /\ 1 <= month d <= 12 /\ 1 <= day d <= 31
  /\ 0 <= hour d <= 23 /\ 0 <= minute d <= 59 /\ 0 <= second d <= 59.
Proof.
  unfold valid_datetime. rewrite !andb_true_iff, !Z.leb_le. tauto.
Qed.

Lemma strftime_Ymd_HMS_length (d : datetime) :
  String.length (strftime_Ymd_HMS d) = 15%nat.
Proof.
  unfold strftime_Ymd_HMS.
  rewrite !append_length, !zero_padded_length. reflexivity.
Qed.

(** The timestamp tells the second. *)
Lemma strftime_Ymd_HMS_injective (d d' : datetime) :
  valid_datetime d = true ->
  valid_datetime d' = true ->
  strftime_Ymd_HMS d = strftime_Ymd_HMS d' ->
  d = d'.
Proof.
  intros Hd Hd' H.
  apply valid_datetime_bounds in Hd, Hd'.
  unfold strftime_Ymd_HMS in H.
  repeat match type of H with
         | zero_padded ?w _ ++ _ = zero_padded ?w _ ++ _ =>
             let Hfield := fresh "Hfield" in
             apply append_injective in H as [Hfield H];
             [apply zero_padded_injective in Hfield; [|cbn; lia|cbn; lia]
             |now rewrite !zero_padded_length]
         | "_" ++ _ = "_" ++ _ =>
             apply append_injective in H as [_ H]; [|reflexivity]
         end.
  apply zero_padded_injective in H; [|cbn; lia|cbn; lia].
  destruct d, d'. cbn in *. congruence.
Qed.

Lemma timestamped_filename_inj (d d' : datetime) :
  valid_datetime d = true ->
  valid_datetime d' = true ->
  timestamped_filename d = timestamped_filename d' ->
  d = d'.
Proof.
  intros Hd Hd' H. unfold timestamped_filename in H.
  apply append_injective in H as [_ H]; [|reflexivity].
  apply append_injective in H as [H _];
    [|now rewrite !strftime_Ymd_HMS_length].
  now apply strftime_Ymd_HMS_injective.
Qed.

(** X13. The default filename is "happy_hour_businesses_", the date and time
    as fourteen digits with an underscore between date and time, and
    ".json": 42 characters. It tells the second it was made in: two dates
    and times of four-digit year give the same name only when they are the
    same to the second. *)
Theorem timestamped_filename_injective (d d' : datetime) :
  valid_datetime d = true ->
  valid_datetime d' = true ->
  (timestamped_filename d = timestamped_filename d' <-> d = d')
  /\ String.length (timestamped_filename d) = 42%nat
  /\ timestamped_filename d
     = "happy_hour_businesses_"
       ++ zero_padded 4 (year d) ++ zero_padded 2 (month d)
       ++ zero_padded 2 (day d) ++ "_" ++ zero_padded 2 (hour d)
       ++ zero_padded 2 (minute d) ++ zero_padded 2 (second d) ++ ".json".
Proof.
  intros Hd Hd'. split; [|split].
  - split; [now apply timestamped_filename_inj | now intros ->].
  - unfold timestamped_filename.
    rewrite !append_length, strftime_Ymd_HMS_length. reflexivity.
  - unfold timestamped_filename, strftime_Ymd_HMS.
    now rewrite !append_associative.
Qed.

Lemma timestamped_filename_injective_witness :
  timestamped_filename sample_now
  = "happy_hour_businesses_20250301_120007.json"
  /\ timestamped_filename sample_now <> timestamped_filename sample_later.
Proof.
  split; [reflexivity|].
  intros H.
  apply (timestamped_filename_injective sample_now sample_later) in H;
    [discriminate | reflexivity | reflexivity].
Defined.







(** ** The script *)











